(** * Lowering of memref.dma_start to the PULP mchan driver calls

    A shallow embedding of
    [xdsl/transforms/experimental/memref_dma_to_pulp.py]
    (class [LowerDmaStartToPulpMchan]) and the properties of its
    single rewrite rule.

    Python objects have an identity: every operation built by the rule
    is a new object, and an SSA value is the result of one such object.
    The embedding keeps that identity as a number handed out by an
    allocation counter, and threads the counter, the log of created
    objects and the pattern rewriter through a state-and-exception
    monad. *)

From Stdlib Require Import ZArith NArith List String Bool Lia PeanoNat.
Import ListNotations.
Local Open Scope string_scope.
Local Open Scope list_scope.

(** ** Attributes and types (xdsl.ir, xdsl.dialects.builtin) *)

(** [IntAttr]: the attribute wrapping a Python integer (unbounded). *)
Record IntAttr : Type := mkIntAttr { data : Z }.

(** The attributes the rule can meet.  [MemRefType] carries its four
    parameters; [memory_space] is an arbitrary attribute ([NoneAttr]
    when the buffer has no region tag). *)
Inductive Attribute : Type :=
| IntegerType (width : N)
| IndexType
| Float32Type
| NoneAttr
| StringAttr (text : string)
| SymbolRefAttr (root_reference : string)
| IntegerAttr (value : IntAttr) (typ : Attribute)
| MemRefType (shape : list Z) (element_type : Attribute)
             (layout : Attribute) (memory_space : Attribute).

Definition i32 : Attribute := IntegerType 32.
Definition i1 : Attribute := IntegerType 1.

(** ** SSA values and operations (xdsl.ir) *)

(** Identity of an operation object, and of a block. *)
Definition OpId : Type := nat.
Definition BlockId : Type := nat.

(** An SSA value is the [index]-th result of an operation, or the
    [index]-th argument of a block; either way it has a type. *)
Inductive SSAValue : Type :=
| OpResult (typ : Attribute) (op : OpId) (index : nat)
| BlockArgument (typ : Attribute) (block : BlockId) (index : nat).

Definition typ (v : SSAValue) : Attribute :=
  match v with
  | OpResult t _ _ => t
  | BlockArgument t _ _ => t
  end.

(** Python compares SSA values by identity: the owner and the position,
    not the type. *)
Definition same_value (v1 v2 : SSAValue) : bool :=
  match v1, v2 with
  | OpResult _ o1 k1, OpResult _ o2 k2 => Nat.eqb o1 o2 && Nat.eqb k1 k2
  | BlockArgument _ b1 k1, BlockArgument _ b2 k2 =>
      Nat.eqb b1 b2 && Nat.eqb k1 k2
  | _, _ => false
  end.

(** Modelled from the spec: memref.DmaStartOp is declared in
    xdsl/dialects/memref.py, which is not among the sources.  Section 3
    gives the copy instruction a source buffer, a destination buffer and
    an element count; the rule reads [src], [dest] and [num_elements].
    As declared in the repository the operation has no result. *)
Record DmaStartOp : Type := mkDmaStartOp {
  dma_id : OpId;
  src : SSAValue;
  dest : SSAValue;
  num_elements : SSAValue
}.

(** The operation classes the rule meets or builds, one constructor per
    Python class, and [OtherOp] for every other operation of a program. *)
Inductive Operation : Type :=
| memref_DmaStartOp (op : DmaStartOp)
| func_Call (id : OpId) (callee : Attribute)
            (arguments : list SSAValue) (result_types : list Attribute)
| arith_Constant (id : OpId) (value : Attribute) (result_typ : Attribute)
| arith_Cmpi (id : OpId) (lhs rhs : SSAValue) (predicate : Attribute)
| memref_ExtractAlignedPointerAsIndexOp (id : OpId) (source : SSAValue)
| OtherOp (id : OpId) (name : string)
          (other_operands : list SSAValue) (result_types : list Attribute).

Definition op_id (o : Operation) : OpId :=
  match o with
  | memref_DmaStartOp d => dma_id d
  | func_Call i _ _ _ => i
  | arith_Constant i _ _ => i
  | arith_Cmpi i _ _ _ => i
  | memref_ExtractAlignedPointerAsIndexOp i _ => i
  | OtherOp i _ _ _ => i
  end.

Definition name (o : Operation) : string :=
  match o with
  | memref_DmaStartOp _ => "memref.dma_start"
  | func_Call _ _ _ _ => "func.call"
  | arith_Constant _ _ _ => "arith.constant"
  | arith_Cmpi _ _ _ _ => "arith.cmpi"
  | memref_ExtractAlignedPointerAsIndexOp _ _ =>
      "memref.extract_aligned_pointer_as_index"
  | OtherOp _ n _ _ => n
  end.

Definition operands (o : Operation) : list SSAValue :=
  match o with
  | memref_DmaStartOp d => [src d; dest d; num_elements d]
  | func_Call _ _ args _ => args
  | arith_Constant _ _ _ => []
  | arith_Cmpi _ l r _ => [l; r]
  | memref_ExtractAlignedPointerAsIndexOp _ s => [s]
  | OtherOp _ _ args _ => args
  end.

Definition result_types_of (o : Operation) : list Attribute :=
  match o with
  | memref_DmaStartOp d => []
  | func_Call _ _ _ ts => ts
  | arith_Constant _ _ t => [t]
  | arith_Cmpi _ _ _ _ => [i1]
  | memref_ExtractAlignedPointerAsIndexOp _ _ => [IndexType]
  | OtherOp _ _ _ ts => ts
  end.

Fixpoint results_from (o : OpId) (k : nat) (ts : list Attribute)
  : list SSAValue :=
  match ts with
  | [] => []
  | t :: ts' => OpResult t o k :: results_from o (S k) ts'
  end.

(** [op.results]: one [OpResult] per result type, owned by [op]. *)
Definition results (o : Operation) : list SSAValue :=
  results_from (op_id o) 0 (result_types_of o).

(** ** The pattern rewriter and the state the rule runs in *)

(** Modelled from the spec: PatternRewriter lives in
    xdsl/pattern_rewriter.py, which is not among the sources.  Sections 2
    and 6 describe the engine as the owner of the matched instruction and
    of the surrounding program, into which the lowered sequence is
    spliced. *)
Record PatternRewriter : Type := mkPatternRewriter {
  current_operation : Operation;
  has_done_action : bool;
  block : list Operation
}.

Inductive Exception : Type :=
| AssertionError
| AttributeError
| ValueError.

(** What an invocation can read and change: the allocator of object
    identities, the objects created so far (oldest first) and the
    rewriter it was handed. *)
Record World : Type := mkWorld {
  next_id : OpId;
  created : list Operation;
  rewriter : PatternRewriter
}.

(** State and exceptions: a raised exception keeps the state reached. *)
Definition M (A : Type) : Type := World -> (Exception + A) * World.

Definition ret {A : Type} (a : A) : M A := fun w => (inr a, w).

Definition raise {A : Type} (e : Exception) : M A := fun w => (inl e, w).

Definition bind {A B : Type} (m : M A) (k : A -> M B) : M B :=
  fun w =>
    match m w with
    | (inl e, w') => (inl e, w')
    | (inr a, w') => k a w'
    end.

Declare Scope monad_scope.
Delimit Scope monad_scope with monad.
Notation "x <- m ;; k" := (bind m (fun x => k))
  (at level 61, m at next level, right associativity) : monad_scope.
Notation "m ;; k" := (bind m (fun _ => k))
  (at level 61, right associativity) : monad_scope.
Local Open Scope monad_scope.

(** Python's [assert]. *)
Definition assert (b : bool) : M unit :=
  if b then ret tt else raise AssertionError.

(** Creating an operation object: it takes the next identity and is
    logged. *)
Definition new_op (mk : OpId -> Operation) : M Operation :=
  fun w =>
    let o := mk (next_id w) in
    (inr o, {| next_id := S (next_id w);
               created := created w ++ [o];
               rewriter := rewriter w |}).

(** ** Helpers of xdsl the rule calls *)

(** [xdsl.utils.hints.isa(t, memref.MemRefType[Attribute])]. *)
Definition isa_MemRefType (t : Attribute) : bool :=
  match t with
  | MemRefType _ _ _ _ => true
  | _ => false
  end.

(** [isa(a, IntegerAttr)]. *)
Definition isa_IntegerAttr (a : Attribute) : bool :=
  match a with
  | IntegerAttr _ _ => true
  | _ => false
  end.

(** Attribute access [t.memory_space]: only a memref type has it. *)
Definition get_memory_space (t : Attribute) : M Attribute :=
  match t with
  | MemRefType _ _ _ ms => ret ms
  | _ => raise AttributeError
  end.

(** Attribute access [a.value]: only an integer attribute has it. *)
Definition get_value (a : Attribute) : M IntAttr :=
  match a with
  | IntegerAttr v _ => ret v
  | _ => raise AttributeError
  end.

(** Modelled from the spec: SSAValue.get is defined in xdsl/ir.py, which
    is not among the sources.  The builders take "typed argument values"
    (section 4.3) given either as a value or as the operation producing
    it; an operation stands for its single result. *)
Definition SSAValue_get (arg : Operation + SSAValue) : M SSAValue :=
  match arg with
  | inr v => ret v
  | inl o =>
      match results o with
      | [v] => ret v
      | _ => raise ValueError
      end
  end.

Fixpoint SSAValue_get_all (args : list (Operation + SSAValue))
  : M (list SSAValue) :=
  match args with
  | [] => ret []
  | a :: rest =>
      v <- SSAValue_get a ;;
      vs <- SSAValue_get_all rest ;;
      ret (v :: vs)
  end.

Module func.
Module Call.
(** Modelled from the spec: func.Call.get is defined in
    xdsl/dialects/func.py, which is not among the sources.  Section
    4.3: given an entry-point name, an ordered list of argument
    values and a declared return-type list, it produces one call
    instruction bound to that entry point. *)
Definition get (callee : string) (ops : list (Operation + SSAValue))
           (return_types : list Attribute) : M Operation :=
  args <- SSAValue_get_all ops ;;
  new_op (fun i => func_Call i (SymbolRefAttr callee) args return_types).
End Call.
End func.

Module arith.
Module Constant.
(** Modelled from the spec: arith.Constant.from_int_and_width is
    defined in xdsl/dialects/arith.py, which is not among the
    sources.  Section 6 (b): constant construction for an integer
    of the given type; the constant holds the integer unchanged. *)
Definition from_int_and_width (val : IntAttr) (t : Attribute)
  : M Operation :=
  new_op (fun i => arith_Constant i (IntegerAttr val t) t).
End Constant.

Module Cmpi.
(** Modelled from the spec: the mnemonics of arith.cmpi and their
    predicate numbers are a table of xdsl/dialects/arith.py, which
    is not among the sources; they are the ones of MLIR's
    arith.cmpi. *)
Definition cmpi_comparison_operations : list (string * Z) :=
  [("eq", 0); ("ne", 1); ("slt", 2); ("sle", 3); ("sgt", 4);
   ("sge", 5); ("ult", 6); ("ule", 7); ("ugt", 8); ("uge", 9)]%Z.

Fixpoint lookup (key : string) (table : list (string * Z))
  : option Z :=
  match table with
  | [] => None
  | (k, v) :: rest => if String.eqb key k then Some v else lookup key rest
  end.

(** Modelled from the spec: arith.Cmpi.get is defined in
    xdsl/dialects/arith.py, which is not among the sources.  Section
    6 (c): the constructor of a comparison instruction over two
    values, the comparison being named by its mnemonic. *)
Definition get (operand1 operand2 : Operation + SSAValue)
           (arg : string) : M Operation :=
  v1 <- SSAValue_get operand1 ;;
  v2 <- SSAValue_get operand2 ;;
  match lookup arg cmpi_comparison_operations with
  | None => raise AssertionError
  | Some p =>
      new_op (fun i =>
                arith_Cmpi i v1 v2
                           (IntegerAttr (mkIntAttr p) (IntegerType 64)))
  end.
End Cmpi.
End arith.

Module memref.
Module ExtractAlignedPointerAsIndexOp.
(** Modelled from the spec: ExtractAlignedPointerAsIndexOp.get is
    defined in xdsl/dialects/memref.py, which is not among the
    sources.  Section 4.1 step 4 and section 6 (d): the base address
    of a buffer as an address-sized integer. *)
Definition get (source : SSAValue) : M Operation :=
  new_op (fun i => memref_ExtractAlignedPointerAsIndexOp i source).
End ExtractAlignedPointerAsIndexOp.
End memref.

(** ** The rewriting engine's replacement of the matched operation *)

Definition same_op (a b : Operation) : bool := Nat.eqb (op_id a) (op_id b).

(** Modelled from the spec: Block.insert_ops_before is defined in
    xdsl/ir.py, which is not among the sources.  Sections 2 and 6: the
    new instructions are spliced in at the matched one, here right
    before it. *)
Fixpoint insert_ops_before (new_ops : list Operation) (existing : Operation)
         (ops : list Operation) : list Operation :=
  match ops with
  | [] => []
  | o :: rest =>
      if same_op o existing then new_ops ++ o :: rest
      else o :: insert_ops_before new_ops existing rest
  end.

(** Modelled from the spec: Block.erase_op is defined in xdsl/ir.py,
    which is not among the sources.  The matched instruction leaves the
    program. *)
Fixpoint erase_op (op : Operation) (ops : list Operation) : list Operation :=
  match ops with
  | [] => []
  | o :: rest => if same_op o op then rest else o :: erase_op op rest
  end.

Definition map_operands (f : SSAValue -> SSAValue) (o : Operation)
  : Operation :=
  match o with
  | memref_DmaStartOp d =>
      memref_DmaStartOp
        {| dma_id := dma_id d;
           src := f (src d);
           dest := f (dest d);
           num_elements := f (num_elements d) |}
  | func_Call i c args ts => func_Call i c (map f args) ts
  | arith_Constant i v t => arith_Constant i v t
  | arith_Cmpi i l r p => arith_Cmpi i (f l) (f r) p
  | memref_ExtractAlignedPointerAsIndexOp i s =>
      memref_ExtractAlignedPointerAsIndexOp i (f s)
  | OtherOp i n args ts => OtherOp i n (map f args) ts
  end.

(** What a use of [old] reads once [old] has been replaced by [new]. *)
Definition rebind (old new v : SSAValue) : SSAValue :=
  if same_value v old then new else v.

(** Modelled from the spec: SSAValue.replace_by is defined in xdsl/ir.py,
    which is not among the sources.  Section 4.1: every use of [old]
    becomes a use of [new]. *)
Definition replace_by (old new : SSAValue) (ops : list Operation)
  : list Operation :=
  map (map_operands (rebind old new)) ops.

(** Modelled from the spec: the loop of the engine over the old results
    and their replacements, in xdsl/pattern_rewriter.py, which is not
    among the sources.  It runs only on two lists of the same length
    (see [replace_matched_op]), pair by pair. *)
Fixpoint replace_results (olds news : list SSAValue)
         (ops : list Operation) : list Operation :=
  match olds, news with
  | o :: olds', n :: news' => replace_results olds' news' (replace_by o n ops)
  | _, _ => ops
  end.

(** Modelled from the spec: PatternRewriter.replace_matched_op is defined
    in xdsl/pattern_rewriter.py, which is not among the sources.
    Sections 2, 4.1 and 6: the engine splices the ordered new
    instructions in at the matched instruction, rebinds every use of an
    old result to the value designated for it, and drops the matched
    instruction.  The engine notes that an action was requested, then
    wants one new value per result of the matched instruction: when the
    numbers differ it raises ValueError and the program stays as it was.
    The erasure comes after the uses have been rebound, so [safe_erase]
    makes no difference to it. *)
Definition replace_matched_op (new_ops : list Operation)
           (new_results : list SSAValue) (safe_erase : bool) : M unit :=
  fun w =>
    let r := rewriter w in
    let op := current_operation r in
    if Nat.eqb (List.length (results op)) (List.length new_results)
    then
      let spliced := insert_ops_before new_ops op (block r) in
      let rebound := replace_results (results op) new_results spliced in
      (inr tt,
       {| next_id := next_id w;
          created := created w;
          rewriter := {| current_operation := op;
                         has_done_action := true;
                         block := erase_op op rebound |} |})
    else
      (inl ValueError,
       {| next_id := next_id w;
          created := created w;
          rewriter := {| current_operation := op;
                         has_done_action := true;
                         block := block r |} |}).

(** ** The rule: LowerDmaStartToPulpMchan *)

(** The three arguments of the call of [replace_matched_op]. *)
Definition LoweredSequence : Type :=
  (list Operation * list SSAValue * bool)%type.

(** Modelled from the spec: the decorator op_type_rewrite_pattern is
    defined in xdsl/pattern_rewriter.py, which is not among the sources.
    Section 2 makes the match predicate part of the rule: the body runs
    on an operation of the class its [op] parameter is annotated with,
    and any other operation is left alone. *)
Definition op_type_rewrite_pattern (body : DmaStartOp -> M unit)
  : Operation -> M unit :=
  fun op =>
    match op with
    | memref_DmaStartOp d => body d
    | _ => ret tt
    end.

Module LowerDmaStartToPulpMchan.
(** Lines 16 to 45 up to the call itself: the four assertions, then the
    arguments of [replace_matched_op], evaluated in Python's order (the
    elements of the list from left to right, the arguments of a call
    before the call). *)
Definition lower (op : DmaStartOp) : M LoweredSequence :=
  assert (isa_MemRefType (typ (src op))) ;;
  src_space <- get_memory_space (typ (src op)) ;;
  assert (isa_IntegerAttr src_space) ;;
  assert (isa_MemRefType (typ (dest op))) ;;
  dest_space <- get_memory_space (typ (dest op)) ;;
  assert (isa_IntegerAttr dest_space) ;;
  transfer_id <- func.Call.get "mchan_transfer_get_id" [] [i32] ;;
  src_space <- get_memory_space (typ (src op)) ;;
  src_tag <- get_value src_space ;;
  src_memory_space <-
    arith.Constant.from_int_and_width src_tag IndexType ;;
  dest_space <- get_memory_space (typ (dest op)) ;;
  dest_tag <- get_value dest_space ;;
  dest_memory_space <-
    arith.Constant.from_int_and_width dest_tag IndexType ;;
  transfer_direction <-
    arith.Cmpi.get (inl src_memory_space) (inl dest_memory_space) "ugt" ;;
  src_pointer <- memref.ExtractAlignedPointerAsIndexOp.get (src op) ;;
  dest_pointer <- memref.ExtractAlignedPointerAsIndexOp.get (dest op) ;;
  push <-
    func.Call.get "mchan_transfer_push_1d"
                  [inr (num_elements op);
                   inl transfer_direction;
                   inl src_pointer;
                   inl dest_pointer]
                  [] ;;
  ret ([transfer_id;
        src_memory_space;
        dest_memory_space;
        transfer_direction;
        push],
       results transfer_id,
       false).

(** The body of [match_and_rewrite]: the arguments, then the call. *)
Definition match_and_rewrite_body (op : DmaStartOp) : M unit :=
  seq <- lower op ;;
  let '(new_ops, new_results, safe_erase) := seq in
  replace_matched_op new_ops new_results safe_erase.

Definition match_and_rewrite : Operation -> M unit :=
  op_type_rewrite_pattern match_and_rewrite_body.
End LowerDmaStartToPulpMchan.
Import LowerDmaStartToPulpMchan.

(** ** Reading a copy instruction *)

(** The memory-region tag of a buffer: present when the value's type is
    a memref type whose memory space is an integer attribute. *)
Definition memory_region_tag (v : SSAValue) : option IntAttr :=
  match typ v with
  | MemRefType _ _ _ (IntegerAttr i _) => Some i
  | _ => None
  end.

(** The two preconditions of section 4.1. *)
Definition valid_copy (op : DmaStartOp) : bool :=
  match memory_region_tag (src op), memory_region_tag (dest op) with
  | Some _, Some _ => true
  | _, _ => false
  end.

(** The sequence handed to the engine by a successful invocation that
    starts with [n] as the next free identity. *)
Definition transfer_id_at (n : OpId) : Operation :=
  func_Call n (SymbolRefAttr "mchan_transfer_get_id") [] [i32].

Definition constant_at (n : OpId) (tag : IntAttr) : Operation :=
  arith_Constant n (IntegerAttr tag IndexType) IndexType.

Definition ugt_predicate : Attribute :=
  IntegerAttr (mkIntAttr 8) (IntegerType 64).

Definition direction_at (n : OpId) : Operation :=
  arith_Cmpi (n + 3) (OpResult IndexType (n + 1) 0)
             (OpResult IndexType (n + 2) 0) ugt_predicate.

Definition push_at (n : OpId) (count : SSAValue) : Operation :=
  func_Call (n + 6) (SymbolRefAttr "mchan_transfer_push_1d")
            [count;
             OpResult i1 (n + 3) 0;
             OpResult IndexType (n + 4) 0;
             OpResult IndexType (n + 5) 0]
            [].

Definition emitted_at (n : OpId) (s d : IntAttr) (count : SSAValue)
  : list Operation :=
  [transfer_id_at n;
   constant_at (n + 1) s;
   constant_at (n + 2) d;
   direction_at n;
   push_at n count].

(** All the objects such an invocation creates, in creation order. *)
Definition created_at (n : OpId) (op : DmaStartOp) (s d : IntAttr)
  : list Operation :=
  [transfer_id_at n;
   constant_at (n + 1) s;
   constant_at (n + 2) d;
   direction_at n;
   memref_ExtractAlignedPointerAsIndexOp (n + 4) (src op);
   memref_ExtractAlignedPointerAsIndexOp (n + 5) (dest op);
   push_at n (num_elements op)].

(** ** What the emitted comparison computes *)

(** Modelled from the spec: the meaning of arith.constant and arith.cmpi
    at run time is not given by the sources.  Sections 4.1 and 4.2: a
    tag is reinterpreted as an address-sized integer, that is as a
    pattern of [bitwidth] bits, and the comparison is unsigned. *)
Definition to_unsigned (bitwidth : N) (v : Z) : Z :=
  (v mod 2 ^ Z.of_N bitwidth)%Z.

Definition to_signed (bitwidth : N) (v : Z) : Z :=
  let u := to_unsigned bitwidth v in
  (if 2 * u <? 2 ^ Z.of_N bitwidth then u else u - 2 ^ Z.of_N bitwidth)%Z.

(** Modelled from the spec: the predicates of arith.cmpi, by their
    number in [cmpi_comparison_operations]; "ugt" (8) is section 4.2's
    strictly-greater unsigned comparison, the others follow their
    mnemonics. *)
Definition run_cmpi (bitwidth : N) (predicate : Z) (l r : Z)
  : option bool :=
  let ul := to_unsigned bitwidth l in
  let ur := to_unsigned bitwidth r in
  let sl := to_signed bitwidth l in
  let sr := to_signed bitwidth r in
  match predicate with
  | 0 => Some (ul =? ur)
  | 1 => Some (negb (ul =? ur))
  | 2 => Some (sl <? sr)
  | 3 => Some (sl <=? sr)
  | 4 => Some (sr <? sl)
  | 5 => Some (sr <=? sl)
  | 6 => Some (ul <? ur)
  | 7 => Some (ul <=? ur)
  | 8 => Some (ur <? ul)
  | 9 => Some (ur <=? ul)
  | _ => None
  end%Z.

(** Run-time values of the SSA values computed so far, newest first. *)
Definition Env : Type := list (OpId * nat * Z).

Fixpoint env_lookup (o : OpId) (k : nat) (env : Env) : option Z :=
  match env with
  | [] => None
  | (o', k', z) :: rest =>
      if Nat.eqb o o' && Nat.eqb k k' then Some z else env_lookup o k rest
  end.

Definition eval_value (env : Env) (v : SSAValue) : option Z :=
  match v with
  | OpResult _ o k => env_lookup o k env
  | BlockArgument _ _ _ => None
  end.

(** One instruction: a constant binds its integer, a comparison binds 1
    or 0; calls and the rest are opaque here. *)
Definition run_op (bitwidth : N) (env : Env) (o : Operation) : Env :=
  match o with
  | arith_Constant i (IntegerAttr v _) _ => (i, 0, data v) :: env
  | arith_Cmpi i l r (IntegerAttr p _) =>
      match eval_value env l, eval_value env r with
      | Some a, Some b =>
          match run_cmpi bitwidth (data p) a b with
          | Some true => (i, 0, 1%Z) :: env
          | Some false => (i, 0, 0%Z) :: env
          | None => env
          end
      | _, _ => env
      end
  | _ => env
  end.

Definition run_ops (bitwidth : N) (ops : list Operation) : Env :=
  fold_left (run_op bitwidth) ops [].

(** The direction a lowered sequence hands to the driver: the value of
    the second argument of its last instruction, the push call. *)
Definition transfer_direction (bitwidth : N) (ops : list Operation)
  : option bool :=
  match last ops (OtherOp 0 "" [] []) with
  | func_Call _ _ (_ :: direction :: _) _ =>
      match eval_value (run_ops bitwidth ops) direction with
      | Some z => Some (negb (z =? 0)%Z)
      | None => None
      end
  | _ => None
  end.

(** The direction computed by the sequence the rule emits for [op]. *)
Definition lowered_direction (bitwidth : N) (op : DmaStartOp) (w : World)
  : option bool :=
  match lower op w with
  | (inr (ops, _, _), _) => transfer_direction bitwidth ops
  | (inl _, _) => None
  end.

(** ** Sample programs *)

Definition buffer_in (tag : Z) : Attribute :=
  MemRefType [64%Z] Float32Type NoneAttr
             (IntegerAttr (mkIntAttr tag) i32).

(** A copy of [%2] elements from block argument 0 to block argument 1. *)
Definition sample_copy (src_tag dest_tag : Z) : DmaStartOp :=
  {| dma_id := 3;
     src := BlockArgument (buffer_in src_tag) 0 0;
     dest := BlockArgument (buffer_in dest_tag) 0 1;
     num_elements := OpResult IndexType 2 0 |}.

(** The program around it: the element count before, another
    instruction after. *)
Definition sample_world (op : DmaStartOp) : World :=
  {| next_id := 10;
     created := [];
     rewriter :=
       {| current_operation := memref_DmaStartOp op;
          has_done_action := false;
          block :=
            [arith_Constant 2 (IntegerAttr (mkIntAttr 64) IndexType)
                            IndexType;
             memref_DmaStartOp op;
             OtherOp 4 "test.op" [OpResult IndexType 2 0] []] |} |}.

(** A copy whose source buffer carries no region tag. *)
Definition untagged_copy : DmaStartOp :=
  {| dma_id := 3;
     src := BlockArgument
              (MemRefType [64%Z] Float32Type NoneAttr NoneAttr) 0 0;
     dest := BlockArgument (buffer_in 0) 0 1;
     num_elements := OpResult IndexType 2 0 |}.

(** ** Structural equality of two runs *)

(** Two invocations create different objects.  Their outputs are
    structurally equal when they agree once the objects created by the
    first (identities from [from] on) are renamed to those created by
    the second (identities from [to] on), in creation order. *)
Definition relocate (from to : OpId) (i : OpId) : OpId :=
  if Nat.leb from i then i - from + to else i.

Definition relocate_value (from to : OpId) (v : SSAValue) : SSAValue :=
  match v with
  | OpResult t o k => OpResult t (relocate from to o) k
  | BlockArgument t b k => BlockArgument t b k
  end.

Definition relocate_op (from to : OpId) (o : Operation) : Operation :=
  let f := relocate from to in
  let g := relocate_value from to in
  match o with
  | memref_DmaStartOp d =>
      memref_DmaStartOp
        {| dma_id := f (dma_id d);
           src := g (src d);
           dest := g (dest d);
           num_elements := g (num_elements d) |}
  | func_Call i c args ts => func_Call (f i) c (map g args) ts
  | arith_Constant i v t => arith_Constant (f i) v t
  | arith_Cmpi i l r p => arith_Cmpi (f i) (g l) (g r) p
  | memref_ExtractAlignedPointerAsIndexOp i s =>
      memref_ExtractAlignedPointerAsIndexOp (f i) (g s)
  | OtherOp i n args ts => OtherOp (f i) n (map g args) ts
  end.

(** A value that existed before the identity [n] was handed out. *)
Definition allocated_before (n : OpId) (v : SSAValue) : bool :=
  match v with
  | OpResult _ o _ => Nat.ltb o n
  | BlockArgument _ _ _ => true
  end.

(** [isinstance(op, memref.DmaStartOp)]. *)
Definition is_DmaStartOp (o : Operation) : bool :=
  match o with
  | memref_DmaStartOp _ => true
  | _ => false
  end.

Definition is_Constant (o : Operation) : bool :=
  match o with
  | arith_Constant _ _ _ => true
  | _ => false
  end.

Definition is_Cmpi (o : Operation) : bool :=
  match o with
  | arith_Cmpi _ _ _ _ => true
  | _ => false
  end.

Definition is_ExtractAlignedPointerAsIndexOp (o : Operation) : bool :=
  match o with
  | memref_ExtractAlignedPointerAsIndexOp _ _ => true
  | _ => false
  end.

(** A second copy with the tags and the element count of
    [sample_copy 2 0] but another identity and other buffers, in a state
    where more objects have been created. *)
Definition second_copy : DmaStartOp :=
  {| dma_id := 7;
     src := OpResult
              (MemRefType [8%Z; 8%Z] (IntegerType 8) NoneAttr
                          (IntegerAttr (mkIntAttr 2) (IntegerType 64)))
              5 0;
     dest := OpResult (buffer_in 0) 6 0;
     num_elements := OpResult IndexType 2 0 |}.

Definition second_world : World :=
  {| next_id := 20;
     created := [OtherOp 19 "test.op" [] []];
     rewriter :=
       {| current_operation := memref_DmaStartOp second_copy;
          has_done_action := true;
          block := [memref_DmaStartOp second_copy] |} |}.

(** ** Scoping of a sequence of instructions *)

(** A value can be read when it is one of the values in scope. *)
Definition available (scope : list SSAValue) (v : SSAValue) : bool :=
  existsb (same_value v) scope.

(** Every instruction of the sequence reads only values in scope: those
    given at the start and the results of the instructions before it. *)
Fixpoint well_scoped (scope : list SSAValue) (ops : list Operation)
  : bool :=
  match ops with
  | [] => true
  | o :: rest =>
      forallb (available scope) (operands o)
      && well_scoped (results o ++ scope) rest
  end.

(** ** Running the rule *)

Lemma lower_valid (op : DmaStartOp) (s d : IntAttr) (w : World) :
  memory_region_tag (src op) = Some s ->
  memory_region_tag (dest op) = Some d ->
  lower op w =
    (inr (emitted_at (next_id w) s d (num_elements op),
          [OpResult i32 (next_id w) 0],
          false),
     {| next_id := next_id w + 7;
        created := created w ++ created_at (next_id w) op s d;
        rewriter := rewriter w |}).
Proof.
  unfold memory_region_tag.
  intros Hs Hd.
  destruct (typ (src op)) as [| | | | | | |shs es ls ms] eqn:Ts; try discriminate.
  destruct ms as [| | | | | |si st|]; try discriminate.
  destruct (typ (dest op)) as [| | | | | | |shd ed ld md] eqn:Td; try discriminate.
  destruct md as [| | | | | |di dt|]; try discriminate.
  injection Hs as <-. injection Hd as <-.
  unfold lower. rewrite Ts, Td.
  destruct w as [n c r]. cbn.
  unfold emitted_at, created_at, transfer_id_at, constant_at, direction_at,
    push_at, ugt_predicate.
  rewrite <- !app_assoc. cbn.
  replace (n + 1) with (S n) by lia.
  replace (n + 2) with (S (S n)) by lia.
  replace (n + 3) with (S (S (S n))) by lia.
  replace (n + 4) with (S (S (S (S n)))) by lia.
  replace (n + 5) with (S (S (S (S (S n))))) by lia.
  replace (n + 6) with (S (S (S (S (S (S n)))))) by lia.
  replace (n + 7) with (S (S (S (S (S (S (S n))))))) by lia.
  reflexivity.
Qed.

Lemma lower_invalid (op : DmaStartOp) (w : World) :
  valid_copy op = false ->
  lower op w = (inl AssertionError, w).
Proof.
  unfold valid_copy, memory_region_tag, lower.
  intros H.
  destruct (typ (src op)) as [| | | | | | |shs es ls ms]; try reflexivity.
  destruct ms as [| | | | | |si st|]; try reflexivity.
  destruct (typ (dest op)) as [| | | | | | |shd ed ld md]; try reflexivity.
  destruct md as [| | | | | |di dt|]; try reflexivity.
  discriminate.
Qed.

(** ** The direction of a lowered copy *)

Ltac decide_ids :=
  repeat match goal with
         | |- context [Nat.eqb ?a ?b] =>
             first
               [ replace (Nat.eqb a b) with true
                   by (symmetry; apply Nat.eqb_eq; lia)
               | replace (Nat.eqb a b) with false
                   by (symmetry; apply Nat.eqb_neq; lia) ]
         end.

Lemma transfer_direction_emitted (bitwidth : N) (n : OpId) (s d : IntAttr)
      (count : SSAValue) :
  transfer_direction bitwidth (emitted_at n s d count) =
    Some (to_unsigned bitwidth (data d) <? to_unsigned bitwidth (data s))%Z.
Proof.
  unfold transfer_direction, emitted_at, run_ops. cbn.
  decide_ids. cbn.
  destruct (to_unsigned bitwidth (data d) <? to_unsigned bitwidth (data s))%Z;
    cbn; decide_ids; reflexivity.
Qed.

Lemma lowered_direction_valid (bitwidth : N) (op : DmaStartOp) (w : World)
      (s d : IntAttr) :
  memory_region_tag (src op) = Some s ->
  memory_region_tag (dest op) = Some d ->
  lowered_direction bitwidth op w =
    Some (to_unsigned bitwidth (data d) <? to_unsigned bitwidth (data s))%Z.
Proof.
  intros Hs Hd. unfold lowered_direction.
  rewrite (lower_valid op s d w Hs Hd).
  apply transfer_direction_emitted.
Qed.

Lemma to_unsigned_small (bitwidth : N) (v : Z) :
  (0 <= v < 2 ^ Z.of_N bitwidth)%Z -> to_unsigned bitwidth v = v.
Proof. intros H. unfold to_unsigned. apply Z.mod_small. exact H. Qed.

(** C3: for every copy instruction that passes the two preconditions,
    the direction computed by the emitted comparison is true exactly
    when the source tag, read as an unsigned integer of the index width,
    is strictly greater than the destination tag read the same way; for
    tags that fit the index width this is the plain order of the tags;
    equal tags give false. *)
Theorem direction_unsigned_greater
        (bitwidth : N) (op : DmaStartOp) (w : World) (s d : IntAttr) :
  memory_region_tag (src op) = Some s ->
  memory_region_tag (dest op) = Some d ->
  exists b : bool,
    lowered_direction bitwidth op w = Some b /\
    (b = true <->
     (to_unsigned bitwidth (data d) < to_unsigned bitwidth (data s))%Z) /\
    ((0 <= data s < 2 ^ Z.of_N bitwidth)%Z ->
     (0 <= data d < 2 ^ Z.of_N bitwidth)%Z ->
     (b = true <-> (data d < data s)%Z)) /\
    (data s = data d -> b = false).
Proof.
  intros Hs Hd.
  eexists. split; [apply (lowered_direction_valid bitwidth op w s d Hs Hd)|].
  split; [apply Z.ltb_lt|]. split.
  - intros Rs Rd. rewrite !to_unsigned_small by assumption. apply Z.ltb_lt.
  - intros E. rewrite E. apply Z.ltb_irrefl.
Qed.

Lemma direction_unsigned_greater_witness :
  lowered_direction 32 (sample_copy 2 0) (sample_world (sample_copy 2 0))
    = Some true.
Proof.
  destruct (direction_unsigned_greater
              32 (sample_copy 2 0) (sample_world (sample_copy 2 0))
              (mkIntAttr 2) (mkIntAttr 0) eq_refl eq_refl)
    as (b & Hb & Hgt & _).
  rewrite Hb. f_equal. apply Hgt. reflexivity.
Defined.

(** Scenario 6 of section 8: tags 2 and 0 give a pull; scenario 7: tags
    1 and 1 give a push. *)
Example direction_scenarios :
  lowered_direction 32 (sample_copy 2 0) (sample_world (sample_copy 2 0))
    = Some true /\
  lowered_direction 32 (sample_copy 1 1) (sample_world (sample_copy 1 1))
    = Some false.
Proof. split; reflexivity. Qed.

(** Whatever the index width, the tag -1 and the tag of all ones are
    the same bit pattern. *)
Lemma to_unsigned_minus_one (bitwidth : N) :
  to_unsigned bitwidth (-1) = to_unsigned bitwidth (2 ^ Z.of_N bitwidth - 1).
Proof.
  unfold to_unsigned.
  assert (H : (0 < 2 ^ Z.of_N bitwidth)%Z) by (apply Z.pow_pos_nonneg; lia).
  replace (-1)%Z
    with (2 ^ Z.of_N bitwidth - 1 + (-1) * 2 ^ Z.of_N bitwidth)%Z by lia.
  rewrite Z.mod_add by lia. reflexivity.
Qed.

(** At any index width the copy from tag -1 to the tag of all ones and
    the copy back both have direction false. *)
Lemma direction_collision (bitwidth : N) (w1 w2 : World) :
  let a := (-1)%Z in
  let b := (2 ^ Z.of_N bitwidth - 1)%Z in
  lowered_direction bitwidth (sample_copy a b) w1 = Some false /\
  lowered_direction bitwidth (sample_copy b a) w2 = Some false.
Proof.
  cbv zeta.
  rewrite (lowered_direction_valid
             bitwidth (sample_copy (-1) (2 ^ Z.of_N bitwidth - 1)) w1
             (mkIntAttr (-1)) (mkIntAttr (2 ^ Z.of_N bitwidth - 1))
             eq_refl eq_refl).
  rewrite (lowered_direction_valid
             bitwidth (sample_copy (2 ^ Z.of_N bitwidth - 1) (-1)) w2
             (mkIntAttr (2 ^ Z.of_N bitwidth - 1)) (mkIntAttr (-1))
             eq_refl eq_refl).
  cbn [data]. rewrite to_unsigned_minus_one, Z.ltb_irrefl.
  split; reflexivity.
Qed.

(** C6, as stated, fails: the tags -1 and 4294967295 differ, yet on a
    32-bit index neither direction is true, so one is not the negation
    of the other. *)
Lemma direction_antisymmetry_counterexample :
  let a := (-1)%Z in
  let b := 4294967295%Z in
  a <> b /\
  lowered_direction 32 (sample_copy a b) (sample_world (sample_copy a b))
    = Some false /\
  lowered_direction 32 (sample_copy b a) (sample_world (sample_copy b a))
    = Some false /\
  lowered_direction 32 (sample_copy a b) (sample_world (sample_copy a b))
    <> option_map negb
         (lowered_direction 32 (sample_copy b a)
                            (sample_world (sample_copy b a))).
Proof.
  cbv zeta. repeat split; try reflexivity; discriminate.
Qed.

(** C6, amended: when the two tags differ as unsigned integers of the
    index width (so for any two distinct tags that fit the width), the
    direction of a copy from a to b is the negation of the direction of
    a copy from b to a; a copy between equal tags has direction false. *)
Theorem direction_antisymmetry
        (bitwidth : N) (op1 op2 : DmaStartOp) (w1 w2 : World)
        (a b : IntAttr) :
  memory_region_tag (src op1) = Some a ->
  memory_region_tag (dest op1) = Some b ->
  memory_region_tag (src op2) = Some b ->
  memory_region_tag (dest op2) = Some a ->
  (to_unsigned bitwidth (data a) <> to_unsigned bitwidth (data b) ->
   exists t : bool,
     lowered_direction bitwidth op1 w1 = Some t /\
     lowered_direction bitwidth op2 w2 = Some (negb t)) /\
  ((0 <= data a < 2 ^ Z.of_N bitwidth)%Z ->
   (0 <= data b < 2 ^ Z.of_N bitwidth)%Z ->
   data a <> data b ->
   exists t : bool,
     lowered_direction bitwidth op1 w1 = Some t /\
     lowered_direction bitwidth op2 w2 = Some (negb t)) /\
  (data a = data b ->
   lowered_direction bitwidth op1 w1 = Some false /\
   lowered_direction bitwidth op2 w2 = Some false).
Proof.
  intros Ha1 Hb1 Hb2 Ha2.
  rewrite (lowered_direction_valid bitwidth op1 w1 a b Ha1 Hb1).
  rewrite (lowered_direction_valid bitwidth op2 w2 b a Hb2 Ha2).
  assert (Hne : to_unsigned bitwidth (data a) <> to_unsigned bitwidth (data b) ->
                exists t : bool,
                  Some (to_unsigned bitwidth (data b)
                        <? to_unsigned bitwidth (data a))%Z = Some t /\
                  Some (to_unsigned bitwidth (data a)
                        <? to_unsigned bitwidth (data b))%Z = Some (negb t)).
  { intros N. eexists. split; [reflexivity|]. f_equal.
    destruct (Z.ltb_spec (to_unsigned bitwidth (data b))
                         (to_unsigned bitwidth (data a)));
      destruct (Z.ltb_spec (to_unsigned bitwidth (data a))
                           (to_unsigned bitwidth (data b)));
      cbn; try reflexivity; lia. }
  split; [exact Hne|]. split.
  - intros Ra Rb N. apply Hne.
    rewrite !to_unsigned_small by assumption. exact N.
  - intros E. rewrite E, Z.ltb_irrefl. split; reflexivity.
Qed.

Lemma direction_antisymmetry_witness :
  (exists t : bool,
     lowered_direction 32 (sample_copy 2 0) (sample_world (sample_copy 2 0))
       = Some t /\
     lowered_direction 32 (sample_copy 0 2) (sample_world (sample_copy 0 2))
       = Some (negb t)) /\
  lowered_direction 32 (sample_copy 1 1) (sample_world (sample_copy 1 1))
    = Some false.
Proof.
  split.
  - destruct (direction_antisymmetry
                32 (sample_copy 2 0) (sample_copy 0 2)
                (sample_world (sample_copy 2 0))
                (sample_world (sample_copy 0 2))
                (mkIntAttr 2) (mkIntAttr 0)
                eq_refl eq_refl eq_refl eq_refl) as (Hne & _ & _).
    apply Hne. vm_compute. discriminate.
  - destruct (direction_antisymmetry
                32 (sample_copy 1 1) (sample_copy 1 1)
                (sample_world (sample_copy 1 1))
                (sample_world (sample_copy 1 1))
                (mkIntAttr 1) (mkIntAttr 1)
                eq_refl eq_refl eq_refl eq_refl) as (_ & _ & Heq).
    apply Heq. reflexivity.
Defined.

(** ** The shape of the emitted sequence *)

(** The sequence handed to the engine has five instructions, none of
    them an address extraction. *)
Lemma emitted_has_no_extraction (n : OpId) (s d : IntAttr)
      (count : SSAValue) :
  List.length (emitted_at n s d count) = 5 /\
  filter is_ExtractAlignedPointerAsIndexOp (emitted_at n s d count) = [].
Proof. split; reflexivity. Qed.

(** C1, on the copy of section 8's scenario 6: the rule creates the
    seven objects in the order the claim gives, but the list it hands to
    the engine holds five of them; the two address extractions are left
    out of the emitted sequence, whose push call still reads their
    results. *)
Theorem emitted_sequence_scenario :
  exists (ops : list Operation) (res : list SSAValue) (w' : World),
    lower (sample_copy 2 0) (sample_world (sample_copy 2 0))
      = (inr (ops, res, false), w') /\
    map name (created w') =
      ["func.call"; "arith.constant"; "arith.constant"; "arith.cmpi";
       "memref.extract_aligned_pointer_as_index";
       "memref.extract_aligned_pointer_as_index"; "func.call"] /\
    map name ops =
      ["func.call"; "arith.constant"; "arith.constant"; "arith.cmpi";
       "func.call"] /\
    filter is_ExtractAlignedPointerAsIndexOp ops = [] /\
    map operands (skipn 4 ops) =
      [[OpResult IndexType 2 0; OpResult i1 13 0;
        OpResult IndexType 14 0; OpResult IndexType 15 0]] /\
    existsb (fun o => Nat.eqb (op_id o) 14 || Nat.eqb (op_id o) 15) ops
      = false.
Proof.
  do 3 eexists. split; [reflexivity|]. repeat split; reflexivity.
Qed.

(** ** Precondition gating *)

Lemma lower_untagged (op : DmaStartOp) (w : World) :
  memory_region_tag (src op) = None \/ memory_region_tag (dest op) = None ->
  lower op w = (inl AssertionError, w).
Proof.
  intros H. apply lower_invalid.
  unfold valid_copy. destruct H as [H|H]; rewrite H.
  - reflexivity.
  - destruct (memory_region_tag (src op)); reflexivity.
Qed.

(** C2: when the source or the destination is not a memref whose memory
    space is an integer attribute, the rule raises and the state it ran
    in is the one it started from: no identity handed out, no object
    created, rewriter and program untouched. *)
Theorem precondition_failure (op : DmaStartOp) (w : World) :
  memory_region_tag (src op) = None \/ memory_region_tag (dest op) = None ->
  lower op w = (inl AssertionError, w) /\
  match_and_rewrite (memref_DmaStartOp op) w = (inl AssertionError, w).
Proof.
  intros H.
  pose proof (lower_untagged op w H) as L.
  split; [exact L|].
  unfold match_and_rewrite, op_type_rewrite_pattern, match_and_rewrite_body,
    bind.
  rewrite L. reflexivity.
Qed.

Lemma precondition_failure_witness :
  lower untagged_copy (sample_world untagged_copy)
    = (inl AssertionError, sample_world untagged_copy) /\
  match_and_rewrite (memref_DmaStartOp untagged_copy)
                    (sample_world untagged_copy)
    = (inl AssertionError, sample_world untagged_copy).
Proof.
  apply (precondition_failure untagged_copy (sample_world untagged_copy)).
  left. reflexivity.
Defined.

(** ** The slot-allocation call *)

(** C7: the first emitted instruction is the call of
    mchan_transfer_get_id, with no argument and the single result type
    i32, and the values designated to replace the copy's results are the
    results of that call: its one i32 result. *)
Theorem first_instruction_allocates_slot
        (op : DmaStartOp) (w : World) (s d : IntAttr) :
  memory_region_tag (src op) = Some s ->
  memory_region_tag (dest op) = Some d ->
  exists (first : Operation) (rest : list Operation) (w' : World),
    lower op w = (inr (first :: rest, results first, false), w') /\
    first = func_Call (next_id w) (SymbolRefAttr "mchan_transfer_get_id")
                      [] [i32] /\
    operands first = [] /\
    result_types_of first = [IntegerType 32] /\
    results first = [OpResult (IntegerType 32) (next_id w) 0].
Proof.
  intros Hs Hd.
  exists (transfer_id_at (next_id w)),
    (tl (emitted_at (next_id w) s d (num_elements op))).
  eexists.
  split; [apply (lower_valid op s d w Hs Hd)|].
  repeat split; reflexivity.
Qed.

Lemma first_instruction_allocates_slot_witness :
  exists (first : Operation) (rest : list Operation) (w' : World),
    lower (sample_copy 2 0) (sample_world (sample_copy 2 0))
      = (inr (first :: rest, results first, false), w') /\
    first = func_Call 10 (SymbolRefAttr "mchan_transfer_get_id") [] [i32] /\
    operands first = [] /\
    result_types_of first = [IntegerType 32] /\
    results first = [OpResult (IntegerType 32) 10 0].
Proof.
  apply (first_instruction_allocates_slot
           (sample_copy 2 0) (sample_world (sample_copy 2 0))
           (mkIntAttr 2) (mkIntAttr 0)); reflexivity.
Defined.

(** ** The two constants and the comparison *)

(** C8: the emitted sequence holds exactly two constants, the first
    with the source tag and the second with the destination tag, each an
    integer attribute of index type with an index-typed result; it holds
    exactly one comparison, whose operands are the results of these two
    constants, in this order. *)
Theorem constants_hold_the_tags
        (op : DmaStartOp) (w : World) (s d : IntAttr) :
  memory_region_tag (src op) = Some s ->
  memory_region_tag (dest op) = Some d ->
  exists (ops : list Operation) (res : list SSAValue) (w' : World)
         (c_src c_dest cmp : Operation),
    lower op w = (inr (ops, res, false), w') /\
    filter is_Constant ops = [c_src; c_dest] /\
    c_src = arith_Constant (next_id w + 1) (IntegerAttr s IndexType)
                           IndexType /\
    c_dest = arith_Constant (next_id w + 2) (IntegerAttr d IndexType)
                            IndexType /\
    filter is_Cmpi ops = [cmp] /\
    operands cmp = results c_src ++ results c_dest.
Proof.
  intros Hs Hd.
  exists (emitted_at (next_id w) s d (num_elements op)).
  do 2 eexists.
  exists (constant_at (next_id w + 1) s), (constant_at (next_id w + 2) d),
    (direction_at (next_id w)).
  split; [apply (lower_valid op s d w Hs Hd)|].
  repeat split; reflexivity.
Qed.

Lemma constants_hold_the_tags_witness :
  exists (ops : list Operation) (res : list SSAValue) (w' : World)
         (c_src c_dest cmp : Operation),
    lower (sample_copy 2 0) (sample_world (sample_copy 2 0))
      = (inr (ops, res, false), w') /\
    filter is_Constant ops = [c_src; c_dest] /\
    c_src = arith_Constant (10 + 1) (IntegerAttr (mkIntAttr 2) IndexType)
                           IndexType /\
    c_dest = arith_Constant (10 + 2) (IntegerAttr (mkIntAttr 0) IndexType)
                            IndexType /\
    filter is_Cmpi ops = [cmp] /\
    operands cmp = results c_src ++ results c_dest.
Proof.
  apply (constants_hold_the_tags
           (sample_copy 2 0) (sample_world (sample_copy 2 0))
           (mkIntAttr 2) (mkIntAttr 0)); reflexivity.
Defined.

(** ** The push call *)

(** C4: the last emitted instruction is the call of
    mchan_transfer_push_1d; it declares no result and its arguments are,
    in order, the copy's own element-count operand, the result of the
    emitted comparison of the two tag constants (whose value is the
    direction of the two tags), the result of an address extraction
    created from the copy's source and the result of one created from
    its destination. *)
Theorem push_call_arguments
        (bitwidth : N) (op : DmaStartOp) (w : World) (s d : IntAttr) :
  memory_region_tag (src op) = Some s ->
  memory_region_tag (dest op) = Some d ->
  exists (ops : list Operation) (res : list SSAValue) (w' : World)
         (push cmp src_pointer dest_pointer : Operation)
         (direction src_address dest_address : SSAValue),
    lower op w = (inr (ops, res, false), w') /\
    last ops (memref_DmaStartOp op) = push /\
    push = func_Call (op_id push) (SymbolRefAttr "mchan_transfer_push_1d")
                     [num_elements op; direction; src_address; dest_address]
                     [] /\
    results push = [] /\
    In cmp ops /\
    cmp = arith_Cmpi (op_id cmp)
                     (OpResult IndexType (next_id w + 1) 0)
                     (OpResult IndexType (next_id w + 2) 0)
                     ugt_predicate /\
    results cmp = [direction] /\
    transfer_direction bitwidth ops =
      Some (to_unsigned bitwidth (data d) <? to_unsigned bitwidth (data s))%Z /\
    In src_pointer (created w') /\
    src_pointer =
      memref_ExtractAlignedPointerAsIndexOp (op_id src_pointer) (src op) /\
    results src_pointer = [src_address] /\
    In dest_pointer (created w') /\
    dest_pointer =
      memref_ExtractAlignedPointerAsIndexOp (op_id dest_pointer) (dest op) /\
    results dest_pointer = [dest_address].
Proof.
  intros Hs Hd.
  exists (emitted_at (next_id w) s d (num_elements op)).
  do 2 eexists.
  exists (push_at (next_id w) (num_elements op)), (direction_at (next_id w)),
    (memref_ExtractAlignedPointerAsIndexOp (next_id w + 4) (src op)),
    (memref_ExtractAlignedPointerAsIndexOp (next_id w + 5) (dest op)).
  do 3 eexists.
  split; [apply (lower_valid op s d w Hs Hd)|].
  split; [reflexivity|]. split; [reflexivity|]. split; [reflexivity|].
  split; [cbn; tauto|]. split; [reflexivity|]. split; [reflexivity|].
  split; [apply transfer_direction_emitted|].
  split; [cbn; apply in_or_app; right; cbn; tauto|].
  split; [reflexivity|]. split; [reflexivity|].
  split; [cbn; apply in_or_app; right; cbn; tauto|].
  split; reflexivity.
Qed.

Lemma push_call_arguments_witness :
  exists (ops : list Operation) (res : list SSAValue) (w' : World)
         (push cmp src_pointer dest_pointer : Operation)
         (direction src_address dest_address : SSAValue),
    lower (sample_copy 2 0) (sample_world (sample_copy 2 0))
      = (inr (ops, res, false), w') /\
    last ops (memref_DmaStartOp (sample_copy 2 0)) = push /\
    push = func_Call (op_id push) (SymbolRefAttr "mchan_transfer_push_1d")
                     [num_elements (sample_copy 2 0); direction;
                      src_address; dest_address]
                     [] /\
    results push = [] /\
    In cmp ops /\
    cmp = arith_Cmpi (op_id cmp)
                     (OpResult IndexType (10 + 1) 0)
                     (OpResult IndexType (10 + 2) 0)
                     ugt_predicate /\
    results cmp = [direction] /\
    transfer_direction 32 ops =
      Some (to_unsigned 32 0 <? to_unsigned 32 2)%Z /\
    In src_pointer (created w') /\
    src_pointer =
      memref_ExtractAlignedPointerAsIndexOp (op_id src_pointer)
                                            (src (sample_copy 2 0)) /\
    results src_pointer = [src_address] /\
    In dest_pointer (created w') /\
    dest_pointer =
      memref_ExtractAlignedPointerAsIndexOp (op_id dest_pointer)
                                            (dest (sample_copy 2 0)) /\
    results dest_pointer = [dest_address].
Proof.
  apply (push_call_arguments
           32 (sample_copy 2 0) (sample_world (sample_copy 2 0))
           (mkIntAttr 2) (mkIntAttr 0)); reflexivity.
Defined.

(** ** Handing the sequence to the engine *)

(** The copy has no result, the rule designates one replacement value:
    the engine refuses. *)
Lemma match_and_rewrite_valid (op : DmaStartOp) (w : World) (s d : IntAttr) :
  memory_region_tag (src op) = Some s ->
  memory_region_tag (dest op) = Some d ->
  current_operation (rewriter w) = memref_DmaStartOp op ->
  match_and_rewrite (memref_DmaStartOp op) w =
    (inl ValueError,
     {| next_id := next_id w + 7;
        created := created w ++ created_at (next_id w) op s d;
        rewriter := {| current_operation := memref_DmaStartOp op;
                       has_done_action := true;
                       block := block (rewriter w) |} |}).
Proof.
  intros Hs Hd Hcur.
  unfold match_and_rewrite, op_type_rewrite_pattern, match_and_rewrite_body,
    bind.
  rewrite (lower_valid op s d w Hs Hd).
  unfold replace_matched_op. cbn [rewriter next_id created].
  rewrite Hcur. reflexivity.
Qed.

(** C5, on the copy of section 8's scenario 6: the rule designates as
    replacement the one result of the slot-allocation call, but the copy
    has no result to replace, so the engine raises ValueError: no use is
    rebound, the program is the one it was, the copy still in it, and
    the seven objects the rule built stay outside it. *)
Theorem replacement_rejected_scenario :
  let op := sample_copy 2 0 in
  let w := sample_world op in
  exists (ops : list Operation) (transfer_id : SSAValue) (w1 w2 : World),
    lower op w = (inr (ops, [transfer_id], false), w1) /\
    flat_map results (firstn 1 ops) = [transfer_id] /\
    results (memref_DmaStartOp op) = [] /\
    match_and_rewrite (memref_DmaStartOp op) w = (inl ValueError, w2) /\
    block (rewriter w2) = block (rewriter w) /\
    map op_id (block (rewriter w2)) = [2; 3; 4] /\
    map op_id (created w2) = [10; 11; 12; 13; 14; 15; 16].
Proof.
  cbv zeta. do 4 eexists.
  split; [reflexivity|]. repeat split; reflexivity.
Qed.

(** ** Operations of another class *)

(** C10: an operation that is not a memref.dma_start is not rewritten:
    the call returns normally and the state (allocator, created objects,
    rewriter and program) is the one it started from. *)
Theorem other_operations_untouched (o : Operation) (w : World) :
  is_DmaStartOp o = false ->
  match_and_rewrite o w = (inr tt, w).
Proof.
  intros H. destruct o; try reflexivity. discriminate.
Qed.

Lemma other_operations_untouched_witness :
  let o := OtherOp 4 "test.op" [OpResult i32 3 0; OpResult IndexType 2 0] [] in
  match_and_rewrite o (sample_world (sample_copy 2 0))
    = (inr tt, sample_world (sample_copy 2 0)).
Proof.
  cbv zeta.
  apply (other_operations_untouched
           (OtherOp 4 "test.op" [OpResult i32 3 0; OpResult IndexType 2 0] [])
           (sample_world (sample_copy 2 0))).
  reflexivity.
Defined.

(** ** Two runs *)

Lemma relocate_base (from to : OpId) : relocate from to from = to.
Proof.
  unfold relocate. rewrite Nat.leb_refl. lia.
Qed.

Lemma relocate_fresh (from to k : nat) :
  relocate from to (from + k) = to + k.
Proof.
  unfold relocate.
  replace (Nat.leb from (from + k)) with true
    by (symmetry; apply Nat.leb_le; lia).
  lia.
Qed.

Lemma relocate_value_allocated (from to : OpId) (v : SSAValue) :
  allocated_before from v = true -> relocate_value from to v = v.
Proof.
  destruct v as [t o k|t b k]; cbn; [|reflexivity].
  intros H. apply Nat.ltb_lt in H. unfold relocate.
  replace (Nat.leb from o) with false
    by (symmetry; apply Nat.leb_gt; exact H).
  reflexivity.
Qed.

Lemma emitted_relocated (n m : OpId) (s d : IntAttr) (count : SSAValue) :
  allocated_before n count = true ->
  map (relocate_op n m) (emitted_at n s d count) = emitted_at m s d count.
Proof.
  intros H.
  unfold emitted_at, transfer_id_at, constant_at, direction_at, push_at.
  cbn.
  rewrite !relocate_fresh, relocate_base, (relocate_value_allocated n m count H).
  reflexivity.
Qed.

(** C9: two invocations on copy instructions with the same source tag,
    the same destination tag and the same element-count operand, in any
    two states, end the same way: either both raise the same exception,
    or both succeed, and then the second emitted sequence is the first
    one with the objects created by the first run renamed, in creation
    order, to those created by the second, the designated replacement
    being in both the result of the first emitted instruction. *)
Theorem lower_deterministic (op1 op2 : DmaStartOp) (w1 w2 : World) :
  memory_region_tag (src op1) = memory_region_tag (src op2) ->
  memory_region_tag (dest op1) = memory_region_tag (dest op2) ->
  num_elements op1 = num_elements op2 ->
  allocated_before (next_id w1) (num_elements op1) = true ->
  match fst (lower op1 w1), fst (lower op2 w2) with
  | inr (ops1, res1, erase1), inr (ops2, res2, erase2) =>
      ops2 = map (relocate_op (next_id w1) (next_id w2)) ops1 /\
      res2 = map (relocate_value (next_id w1) (next_id w2)) res1 /\
      res1 = flat_map results (firstn 1 ops1) /\
      res2 = flat_map results (firstn 1 ops2) /\
      erase1 = erase2
  | inl e1, inl e2 => e1 = e2
  | _, _ => False
  end.
Proof.
  intros Hs Hd Hn Ha.
  destruct (memory_region_tag (src op1)) as [s|] eqn:S1;
    [destruct (memory_region_tag (dest op1)) as [d|] eqn:D1|].
  - rewrite (lower_valid op1 s d w1 S1 D1).
    rewrite (lower_valid op2 s d w2 (eq_sym Hs) (eq_sym Hd)).
    cbn [fst]. rewrite <- Hn.
    rewrite (emitted_relocated _ (next_id w2) s d _ Ha).
    cbn. rewrite relocate_base. repeat split; reflexivity.
  - rewrite (lower_untagged op1 w1 (or_intror D1)).
    rewrite (lower_untagged op2 w2 (or_intror (eq_sym Hd))).
    reflexivity.
  - rewrite (lower_untagged op1 w1 (or_introl S1)).
    rewrite (lower_untagged op2 w2 (or_introl (eq_sym Hs))).
    reflexivity.
Qed.

Lemma lower_deterministic_witness :
  match fst (lower (sample_copy 2 0) (sample_world (sample_copy 2 0))),
        fst (lower second_copy second_world) with
  | inr (ops1, res1, erase1), inr (ops2, res2, erase2) =>
      ops2 = map (relocate_op 10 20) ops1 /\
      res2 = map (relocate_value 10 20) res1 /\
      res1 = flat_map results (firstn 1 ops1) /\
      res2 = flat_map results (firstn 1 ops2) /\
      erase1 = erase2
  | inl e1, inl e2 => e1 = e2
  | _, _ => False
  end.
Proof.
  apply (lower_deterministic
           (sample_copy 2 0) second_copy
           (sample_world (sample_copy 2 0)) second_world); reflexivity.
Defined.

(** ** Further properties of the rule *)

Lemma valid_copy_tags (op : DmaStartOp) :
  valid_copy op = true ->
  exists s d : IntAttr,
    memory_region_tag (src op) = Some s /\
    memory_region_tag (dest op) = Some d.
Proof.
  unfold valid_copy.
  destruct (memory_region_tag (src op)) as [s|]; [|discriminate].
  destruct (memory_region_tag (dest op)) as [d|]; [|discriminate].
  intros _. exists s, d. split; reflexivity.
Qed.

(** X1: presented with the operation the rewriter is at, the rule never
    changes the program, and it returns normally only on an operation
    that is not a memref.dma_start: on a copy lacking an integer tag it
    raises AssertionError, and on every other copy it raises ValueError,
    the engine refusing one replacement value for an operation without
    result.  It never raises AttributeError. *)
Theorem match_and_rewrite_outcome (o : Operation) (w : World) :
  current_operation (rewriter w) = o ->
  block (rewriter (snd (match_and_rewrite o w))) = block (rewriter w) /\
  fst (match_and_rewrite o w) =
    match o with
    | memref_DmaStartOp op =>
        if valid_copy op then inl ValueError else inl AssertionError
    | _ => inr tt
    end.
Proof.
  intros Hcur.
  destruct o as [op| | | | |]; try (split; reflexivity).
  destruct (valid_copy op) eqn:V.
  - destruct (valid_copy_tags op V) as (s & d & Hs & Hd).
    rewrite (match_and_rewrite_valid op w s d Hs Hd Hcur).
    split; reflexivity.
  - assert (F : match_and_rewrite (memref_DmaStartOp op) w
                = (inl AssertionError, w)).
    { unfold match_and_rewrite, op_type_rewrite_pattern,
        match_and_rewrite_body, bind.
      rewrite (lower_invalid op w V). reflexivity. }
    rewrite F. split; reflexivity.
Qed.

Lemma match_and_rewrite_outcome_witness :
  let op := sample_copy 2 0 in
  let w := sample_world op in
  block (rewriter (snd (match_and_rewrite (memref_DmaStartOp op) w)))
    = block (rewriter w) /\
  fst (match_and_rewrite (memref_DmaStartOp op) w) = inl ValueError.
Proof.
  cbv zeta.
  apply (match_and_rewrite_outcome
           (memref_DmaStartOp (sample_copy 2 0))
           (sample_world (sample_copy 2 0))).
  reflexivity.
Defined.

Lemma same_value_refl (v : SSAValue) : same_value v v = true.
Proof. destruct v; cbn; rewrite !Nat.eqb_refl; reflexivity. Qed.

Lemma available_in (scope : list SSAValue) (v : SSAValue) :
  In v scope -> available scope v = true.
Proof.
  intros H. unfold available. apply existsb_exists.
  exists v. split; [exact H|apply same_value_refl].
Qed.

Lemma unavailable_fresh (n k : nat) (t : Attribute) (scope : list SSAValue) :
  forallb (allocated_before (n + k)) scope = true ->
  available scope (OpResult t (n + k) 0) = false.
Proof.
  unfold available. induction scope as [|v scope IH]; cbn; [reflexivity|].
  intros H. apply andb_prop in H. destruct H as [Hv Hs].
  rewrite (IH Hs), orb_false_r.
  destruct v as [t' o j|t' b j]; cbn in *; [|reflexivity].
  apply Nat.ltb_lt in Hv.
  replace (Nat.eqb (n + k) o) with false
    by (symmetry; apply Nat.eqb_neq; lia).
  reflexivity.
Qed.

Lemma allocated_before_later (n k : nat) (v : SSAValue) :
  allocated_before n v = true -> allocated_before (n + k) v = true.
Proof.
  destruct v as [t o j|t b j]; cbn; [|reflexivity].
  intros H. apply Nat.ltb_lt in H. apply Nat.ltb_lt. lia.
Qed.

Lemma all_allocated_before_later (n k : nat) (scope : list SSAValue) :
  forallb (allocated_before n) scope = true ->
  forallb (allocated_before (n + k)) scope = true.
Proof.
  induction scope as [|v scope IH]; cbn -[allocated_before]; [reflexivity|].
  intros H. apply andb_prop in H. destruct H as [Hv Hs].
  rewrite (allocated_before_later n k v Hv), (IH Hs). reflexivity.
Qed.

Lemma created_well_scoped (n : OpId) (op : DmaStartOp) (s d : IntAttr)
      (scope : list SSAValue) :
  incl (operands (memref_DmaStartOp op)) scope ->
  well_scoped scope (created_at n op s d) = true.
Proof.
  intros H.
  assert (Hsrc : In (src op) scope) by (apply H; cbn; tauto).
  assert (Hdest : In (dest op) scope) by (apply H; cbn; tauto).
  assert (Hcount : In (num_elements op) scope) by (apply H; cbn; tauto).
  unfold created_at, transfer_id_at, constant_at, direction_at, push_at.
  cbn -[available].
  repeat (rewrite available_in by (cbn; tauto)).
  reflexivity.
Qed.

Lemma emitted_not_well_scoped (n : OpId) (s d : IntAttr) (count : SSAValue)
      (scope : list SSAValue) :
  forallb (allocated_before n) scope = true ->
  well_scoped scope (emitted_at n s d count) = false.
Proof.
  intros H.
  unfold emitted_at, transfer_id_at, constant_at, direction_at, push_at.
  cbn -[available].
  rewrite (unavailable_fresh n 4).
  - cbn -[available]. rewrite !andb_false_r. reflexivity.
  - cbn -[allocated_before forallb].
    cbn -[Nat.ltb allocated_before].
    rewrite (all_allocated_before_later n 4 scope H).
    cbn -[Nat.ltb].
    replace (Nat.ltb (n + 3) (n + 4)) with true
      by (symmetry; apply Nat.ltb_lt; lia).
    replace (Nat.ltb (n + 2) (n + 4)) with true
      by (symmetry; apply Nat.ltb_lt; lia).
    replace (Nat.ltb (n + 1) (n + 4)) with true
      by (symmetry; apply Nat.ltb_lt; lia).
    replace (Nat.ltb n (n + 4)) with true
      by (symmetry; apply Nat.ltb_lt; lia).
    reflexivity.
Qed.

(** X4: whatever values are in scope where the copy stands (its three
    operands among them, all of them existing before the rule runs), the
    seven objects the rule creates, taken in creation order, read only
    values in scope or results of objects created before them; the five
    instructions it emits do not: the emitted sequence is not a
    well-scoped piece of program. *)
Theorem created_scoped_emitted_not
        (op : DmaStartOp) (w : World) (s d : IntAttr)
        (scope : list SSAValue) :
  memory_region_tag (src op) = Some s ->
  memory_region_tag (dest op) = Some d ->
  incl (operands (memref_DmaStartOp op)) scope ->
  forallb (allocated_before (next_id w)) scope = true ->
  exists (ops new : list Operation) (res : list SSAValue) (w' : World),
    lower op w = (inr (ops, res, false), w') /\
    created w' = created w ++ new /\
    List.length new = 7 /\
    well_scoped scope new = true /\
    well_scoped scope ops = false.
Proof.
  intros Hs Hd Hincl Hscope.
  do 4 eexists.
  split; [apply (lower_valid op s d w Hs Hd)|].
  split; [reflexivity|]. split; [reflexivity|].
  split.
  - apply created_well_scoped. exact Hincl.
  - apply emitted_not_well_scoped. exact Hscope.
Qed.

Lemma created_scoped_emitted_not_witness :
  let op := sample_copy 2 0 in
  let w := sample_world op in
  let scope := [BlockArgument (buffer_in 2) 0 0;
                BlockArgument (buffer_in 0) 0 1;
                OpResult IndexType 2 0] in
  exists (ops new : list Operation) (res : list SSAValue) (w' : World),
    lower op w = (inr (ops, res, false), w') /\
    created w' = created w ++ new /\
    List.length new = 7 /\
    well_scoped scope new = true /\
    well_scoped scope ops = false.
Proof.
  cbv zeta.
  apply (created_scoped_emitted_not
           (sample_copy 2 0) (sample_world (sample_copy 2 0))
           (mkIntAttr 2) (mkIntAttr 0)); try reflexivity.
  cbn. intros v H. exact H.
Defined.

(** ** Successive runs *)

Lemma emitted_id_range (n : OpId) (s d : IntAttr) (count : SSAValue)
      (o : Operation) :
  In o (emitted_at n s d count) -> n <= op_id o < n + 7.
Proof.
  unfold emitted_at. cbn.
  intros [H|[H|[H|[H|[H|[]]]]]]; subst o; cbn; lia.
Qed.

(** X6: two lowerings run one after the other both use new objects: the
    fourteen objects they create have pairwise different identities, no
    instruction of the second sequence is an instruction of the first,
    the two transfer identifiers are different values, and the second
    run starts numbering where the first stopped. *)
Theorem successive_lowerings
        (op1 op2 : DmaStartOp) (w : World) (s1 d1 s2 d2 : IntAttr) :
  memory_region_tag (src op1) = Some s1 ->
  memory_region_tag (dest op1) = Some d1 ->
  memory_region_tag (src op2) = Some s2 ->
  memory_region_tag (dest op2) = Some d2 ->
  exists (ops1 ops2 new : list Operation) (id1 id2 : SSAValue)
         (w1 w2 : World),
    lower op1 w = (inr (ops1, [id1], false), w1) /\
    lower op2 w1 = (inr (ops2, [id2], false), w2) /\
    created w2 = created w ++ new /\
    List.length new = 14 /\
    NoDup (map op_id new) /\
    (forall o1 o2 : Operation,
        In o1 ops1 -> In o2 ops2 -> same_op o1 o2 = false) /\
    same_value id1 id2 = false /\
    next_id w2 = next_id w + 14.
Proof.
  intros H1s H1d H2s H2d.
  do 7 eexists.
  split; [apply (lower_valid op1 s1 d1 w H1s H1d)|].
  split; [apply (lower_valid op2 s2 d2 _ H2s H2d)|].
  cbn [next_id created rewriter].
  split; [rewrite <- app_assoc; reflexivity|].
  split; [reflexivity|].
  split.
  { unfold created_at, transfer_id_at, constant_at, direction_at, push_at.
    cbn. repeat constructor; cbn; intuition lia. }
  split.
  { intros o1 o2 Ho1 Ho2.
    apply emitted_id_range in Ho1. apply emitted_id_range in Ho2.
    unfold same_op. apply Nat.eqb_neq. lia. }
  split; [|lia].
  cbn. replace (Nat.eqb (next_id w) (next_id w + 7)) with false
    by (symmetry; apply Nat.eqb_neq; lia).
  reflexivity.
Qed.

Lemma successive_lowerings_witness :
  exists (ops1 ops2 new : list Operation) (id1 id2 : SSAValue)
         (w1 w2 : World),
    lower (sample_copy 2 0) (sample_world (sample_copy 2 0))
      = (inr (ops1, [id1], false), w1) /\
    lower second_copy w1 = (inr (ops2, [id2], false), w2) /\
    created w2 = created (sample_world (sample_copy 2 0)) ++ new /\
    List.length new = 14 /\
    NoDup (map op_id new) /\
    (forall o1 o2 : Operation,
        In o1 ops1 -> In o2 ops2 -> same_op o1 o2 = false) /\
    same_value id1 id2 = false /\
    next_id w2 = next_id (sample_world (sample_copy 2 0)) + 14.
Proof.
  apply (successive_lowerings
           (sample_copy 2 0) second_copy (sample_world (sample_copy 2 0))
           (mkIntAttr 2) (mkIntAttr 0) (mkIntAttr 2) (mkIntAttr 0));
    reflexivity.
Defined.
